(** * Creational design patterns: Prototype, Singleton, Factory Method

    A shallow embedding of the three demonstration scripts
    ([prototype], [creational/singleton.ts], [creational/factoryMethod.ts])
    and the proofs of the properties their specification states.

    The Prototype and Singleton scripts depend on object identity, on
    prototype-chain delegation and on mutation, so they are modelled over an
    explicit object heap.  The Factory Method script is pure string
    formatting behind virtual dispatch and is modelled by records of
    methods. *)

From Stdlib Require Import ZArith.
From stdpp Require Import gmap strings list fin_maps pretty.

(** ** The object model *)

Module JS.

(** A reference is the address of an object; [===] on two objects compares
    addresses. *)
Abbreviation loc := nat.

(** Language values.  A number is an integer (the only number the scripts
    use is [245]) or [NaN], the one value that [===] does not relate to
    itself. *)
Inductive value : Type :=
  | VUndef
  | VNull
  | VBool (b : bool)
  | VNum (n : Z)
  | VNaN
  | VStr (s : string)
  | VRef (l : loc).

#[global] Instance value_eq_dec : EqDecision value.
Proof. solve_decision. Defined.

(** Every property the scripts create (by field assignment, by
    [Object.create] without a descriptor map, by a spread literal) is a
    writable, enumerable, configurable data property.  An ordinary object is
    therefore its [[Prototype]] link ([None] is [null]) and a finite map
    from property names to values: its own properties. *)
Record object : Type := Obj {
  proto : option loc;
  props : gmap string value;
}.

(** The heap is the sequence of objects allocated so far; allocation
    appends, nothing is ever freed, and the address of an object is its
    index. *)
Abbreviation heap := (list object).

(** The intrinsic [%Object.prototype%] is the first object of the realm. *)
Definition ObjectPrototype : loc := 0.

Inductive error : Type := TypeError.

(** Outcome of running a piece of code on a heap: normal completion with a
    value, a thrown error (the heap keeps what was done before the throw),
    or [Stuck] when the model is asked to follow a dangling address or a
    prototype chain that does not end. *)
Inductive result (A : Type) : Type :=
  | Ok (a : A) (h : heap)
  | Throw (e : error) (h : heap)
  | Stuck.
Arguments Ok {A} a h.
Arguments Throw {A} e h.
Arguments Stuck {A}.

Definition M (A : Type) : Type := heap -> result A.

#[global] Instance M_ret : MRet M := fun A a h => Ok a h.

#[global] Instance M_bind : MBind M := fun A B f m h =>
  match m h with
  | Ok a h' => f a h'
  | Throw e h' => Throw e h'
  | Stuck => Stuck
  end.

Definition throw {A} (e : error) : M A := fun h => Throw e h.

(** [[Get]]: look the property up on the object, then along its prototype
    chain; a chain that ends without the property gives [undefined].  The
    fuel bounds the number of links followed.  Only data properties are
    looked up: the accessor [__proto__] of [%Object.prototype%] is not
    part of the model, and the properties below that range over every
    property name leave that name out wherever it would matter. *)
Fixpoint get_fuel (n : nat) (h : heap) (l : loc) (k : string) : option value :=
  match n with
  | O => None
  | S n' =>
      match h !! l with
      | None => None
      | Some o =>
          match props o !! k with
          | Some v => Some v
          | None =>
              match proto o with
              | None => Some VUndef
              | Some l' => get_fuel n' h l' k
              end
          end
      end
  end.

(** A chain in a heap of [n] objects has at most [n] links. *)
Definition get (h : heap) (l : loc) (k : string) : option value :=
  get_fuel (length h) h l k.

(** [o.k] as an expression. *)
Definition Get (l : loc) (k : string) : M value :=
  fun h => match get h l k with Some v => Ok v h | None => Stuck end.

(** Allocation of an ordinary object with the given prototype link and no
    own property. *)
Definition alloc (p : option loc) : M loc :=
  fun h => Ok (length h) (h ++ [Obj p ∅]).

(** [Object.create(v)]: a new object whose prototype is [v]; anything but
    an object or [null] is rejected with a [TypeError]. *)
Definition Object_create (v : value) : M loc :=
  match v with
  | VRef l => alloc (Some l)
  | VNull => alloc None
  | _ => throw TypeError
  end.

(** [{}]: a new object whose prototype is [%Object.prototype%]. *)
Definition new_object : M loc := alloc (Some ObjectPrototype).

(** [o.k = v].  All properties being writable data properties, the
    assignment creates or updates an own property of the receiver, whatever
    the prototype chain holds.  (This is not what an assignment to
    [__proto__] does when it reaches the setter of [%Object.prototype%].) *)
Definition Set_ (l : loc) (k : string) (v : value) : M unit :=
  fun h =>
    match h !! l with
    | Some o => Ok tt (<[l := Obj (proto o) (<[k := v]> (props o))]> h)
    | None => Stuck
    end.

(** The own enumerable properties that a spread reads from a value:
    those of the object for a reference, the indexed characters for a
    string, and none for [undefined], [null], booleans and numbers.  A
    string is indexed byte by byte, which is character by character for
    an ASCII string. *)
Definition string_index_props (s : string) : gmap string value :=
  list_to_map
    (imap (fun i c => (pretty i, VStr (String c EmptyString)))
          (String.list_ascii_of_string s)).

Definition own_enumerable (h : heap) (v : value) : option (gmap string value) :=
  match v with
  | VRef l => props <$> h !! l
  | VStr s => Some (string_index_props s)
  | VUndef | VNull | VBool _ | VNum _ | VNaN => Some ∅
  end.

(** [...v] inside an object literal under construction at [target]
    (CopyDataProperties): the copied properties replace those of the same
    name already defined. *)
Definition CopyDataProperties (target : loc) (v : value) : M unit :=
  fun h =>
    match own_enumerable h v, h !! target with
    | Some ps, Some t => Ok tt (<[target := Obj (proto t) (ps ∪ props t)]> h)
    | _, _ => Stuck
    end.

(** [new C()] for a class [C] with an empty constructor: the prototype of
    the new object is read from [C.prototype], with [%Object.prototype%] as
    fallback when that is not an object. *)
Definition new_ (C : loc) : M loc :=
  p ← Get C "prototype";
  match p with
  | VRef l => alloc (Some l)
  | _ => alloc (Some ObjectPrototype)
  end.

(** ToBoolean, as applied by [!] and [if]. *)
Definition truthy (v : value) : bool :=
  match v with
  | VUndef | VNull => false
  | VBool b => b
  | VNum n => negb (n =? 0)%Z
  | VNaN => false
  | VStr s => negb (String.eqb s EmptyString)
  | VRef _ => true
  end.

(** [===] on the values of the model: the same value, except that [NaN]
    is not [===] to anything, itself included. *)
Definition strict_eq (v w : value) : bool :=
  match v with
  | VNaN => false
  | _ => bool_decide (v = w)
  end.

(** Prototype links point to objects allocated earlier.  [Object.create],
    [new] and object literals all establish this, and nothing in the
    scripts re-links a prototype. *)
Definition proto_ok (h : heap) : Prop :=
  forall l o l', h !! l = Some o -> proto o = Some l' -> l' < l.

Definition proto_okb (h : heap) : bool :=
  forallb (fun x => x)
    (imap (fun l o => match proto o with
                      | Some l' => l' <? l
                      | None => true
                      end) h).

(** Reading a path of properties from a value, as [v.k1.k2]; only
    objects are dereferenced. *)
Fixpoint get_path (h : heap) (v : value) (ks : list string) : option value :=
  match ks with
  | [] => Some v
  | k :: ks' =>
      match v with
      | VRef l =>
          match get h l k with
          | Some w => get_path h w ks'
          | None => None
          end
      | _ => None
      end
  end.

(** The own property [k] of the object at [l], if it has one. *)
Definition own (h : heap) (l : loc) (k : string) : option value :=
  match h !! l with
  | Some o => props o !! k
  | None => None
  end.

End JS.

(** ** Prototype *)

Module Prototype.
Import JS.

(** [Prototype.clone], called on the object at [this]:
<<
    const clone = Object.create(this);
    clone.component = Object.create(this.component);
    clone.circularReference = {
      ...this.circularReference,
      prototype: { ...this },
    };
    return clone;
>>
    The object literal allocates the outer object first, copies the
    spread, then builds the inner literal and defines [prototype]. *)
Definition clone (this : loc) : M loc :=
  clone ← Object_create (VRef this);
  component ← Get this "component";
  component' ← Object_create component;
  Set_ clone "component" (VRef component');;
  holder ← new_object;
  circularReference ← Get this "circularReference";
  CopyDataProperties holder circularReference;;
  copy ← new_object;
  CopyDataProperties copy (VRef this);;
  Set_ holder "prototype" (VRef copy);;
  Set_ clone "circularReference" (VRef holder);;
  mret clone.

(** [new ComponentWithBackReference(prototype)]: the constructor stores its
    argument in the field [prototype]. *)
Definition new_ComponentWithBackReference (C : loc) (prototype : value) : M loc :=
  this ← new_ C;
  Set_ this "prototype" prototype;;
  mret this.

(** [a.k === b.k'] for two objects. *)
Definition same (a : loc) (ks : list string) (b : loc) (ks' : list string)
  : M bool :=
  fun h =>
    match get_path h (VRef a) ks, get_path h (VRef b) ks' with
    | Some v, Some w => Ok (strict_eq v w) h
    | _, _ => Stuck
    end.

(** [if (c) console.log(yes) else console.log(no)]: the line printed. *)
Definition report (c : bool) (yes no : string) : string :=
  if c then yes else no.

(** The scripted client; the result is the list of lines it prints.  The
    three arguments are the class objects [Prototype], [Date] and
    [ComponentWithBackReference]. *)
Definition clientCode (CPrototype CDate CHolder : loc) : M (list string) :=
  p1 ← new_ CPrototype;
  Set_ p1 "primitive" (VNum 245);;
  date ← new_ CDate;
  Set_ p1 "component" (VRef date);;
  holder ← new_ComponentWithBackReference CHolder (VRef p1);
  Set_ p1 "circularReference" (VRef holder);;
  p2 ← clone p1;
  b1 ← same p1 ["primitive"] p2 ["primitive"];
  b2 ← same p1 ["component"] p2 ["component"];
  b3 ← same p1 ["circularReference"] p2 ["circularReference"];
  b4 ← same p1 ["circularReference"; "prototype"]
            p2 ["circularReference"; "prototype"];
  mret
    [ report b1 "Primitive field values have been carried over to a clone. Yay!"
                "Primitive field values have not been copied. Booo!";
      report b2 "Simple component has not been cloned. Booo!"
                "Simple component has been cloned. Yay!";
      report b3 "Component with back reference has not been cloned. Booo!"
                "Component with back reference has been cloned. Yay!";
      report b4 "Component with back reference is linked to original object. Booo!"
                "Component with back reference is linked to the clone. Yay!" ].

(** A realm for the client: [%Object.prototype%], then each class object
    followed by its [prototype] object. *)
Definition realm : heap :=
  [ Obj None ∅;
    Obj (Some 0) {[ "prototype" := VRef 2 ]}; Obj (Some 0) ∅;
    Obj (Some 0) {[ "prototype" := VRef 4 ]}; Obj (Some 0) ∅;
    Obj (Some 0) {[ "prototype" := VRef 6 ]}; Obj (Some 0) ∅ ].

(** The client's [p1] as it stands just before [p1.clone()] is called:
    [p1] is at address 7, its component at 8, its holder at 9. *)
Definition client_heap : heap :=
  realm ++
  [ Obj (Some 2) {[ "primitive" := VNum 245; "component" := VRef 8;
                    "circularReference" := VRef 9 ]};
    Obj (Some 4) ∅;
    Obj (Some 6) {[ "prototype" := VRef 7 ]} ].

(** A well-formed prototype: an allocated object, in a heap whose
    prototype links are in order, whose [component] and
    [circularReference] read as allocated objects. *)
Record wf_Prototype (h : heap) (p : loc) : Prop := {
  wf_links : proto_ok h;
  wf_this : is_Some (h !! p);
  wf_component :
    exists lc, get h p "component" = Some (VRef lc) /\ is_Some (h !! lc);
  wf_circularReference :
    exists lb, get h p "circularReference" = Some (VRef lb) /\ is_Some (h !! lb);
}.

(** The four objects that [clone] allocates on top of [h]: the clone, its
    component, its holder, and the copy of the source kept by the
    holder.  [ob] is what the spread of [this.circularReference] copies. *)
Definition cloned (h : heap) (p : loc) (o : object) (lc : loc)
    (ob : gmap string value) : heap :=
  [ Obj (Some p)
        (<["circularReference" := VRef (length h + 2)]>
           (<["component" := VRef (length h + 1)]> ∅));
    Obj (Some lc) ∅;
    Obj (Some ObjectPrototype)
        (<["prototype" := VRef (length h + 3)]> ob);
    Obj (Some ObjectPrototype) (props o) ].

(** The owner recorded by the holder of an object: [x.circularReference.prototype]. *)
Definition owner_of (h : heap) (x : loc) : option value :=
  get_path h (VRef x) ["circularReference"; "prototype"].

(** A prototype whose component has an own field: [p] is at address 7,
    its component at 8, its holder at 9. *)
Definition dated_heap : heap :=
  realm ++
  [ Obj (Some 2) {[ "primitive" := VNum 245; "component" := VRef 8;
                    "circularReference" := VRef 9 ]};
    Obj (Some 0) {[ "year" := VNum 2024 ]};
    Obj (Some 6) {[ "prototype" := VRef 7 ]} ].

(** A prototype whose [circularReference] was never assigned. *)
Definition no_holder_heap : heap :=
  realm ++
  [ Obj (Some 2) {[ "primitive" := VNum 245; "component" := VRef 8 ]};
    Obj (Some 4) ∅ ].

(** A prototype whose [component] was never assigned. *)
Definition no_component_heap : heap :=
  realm ++
  [ Obj (Some 2) {[ "primitive" := VNum 245; "circularReference" := VRef 8 ]};
    Obj (Some 6) {[ "prototype" := VRef 7 ]} ].

(** A prototype whose [primitive] is [NaN]. *)
Definition nan_heap : heap :=
  realm ++
  [ Obj (Some 2) {[ "primitive" := VNaN; "component" := VRef 8;
                    "circularReference" := VRef 9 ]};
    Obj (Some 4) ∅;
    Obj (Some 6) {[ "prototype" := VRef 7 ]} ].

(** A prototype whose [component] is [null]. *)
Definition null_component_heap : heap :=
  realm ++
  [ Obj (Some 2) {[ "primitive" := VNum 245; "component" := VNull;
                    "circularReference" := VRef 8 ]};
    Obj (Some 6) {[ "prototype" := VRef 7 ]} ].

End Prototype.

(** ** Singleton *)

Module Singleton.
Import JS.

(** [Singleton.getInstance()], [Singleton] being the class object, which
    holds the static field [instance]:
<<
    if (!Singleton.instance) {
      Singleton.instance = new Singleton();
    }
    return Singleton.instance;
>> *)
Definition getInstance (Singleton : loc) : M value :=
  instance ← Get Singleton "instance";
  (if negb (truthy instance)
   then this ← new_ Singleton; Set_ Singleton "instance" (VRef this)
   else mret tt);;
  Get Singleton "instance".

(** [n] calls in a row, with the results in order. *)
Fixpoint getInstance_times (Singleton : loc) (n : nat) : M (list value) :=
  match n with
  | O => mret []
  | S n' =>
      s ← getInstance Singleton;
      rest ← getInstance_times Singleton n';
      mret (s :: rest)
  end.

(** The scripted client; the result is the line it prints. *)
Definition clientCode (Singleton : loc) : M string :=
  s1 ← getInstance Singleton;
  s2 ← getInstance Singleton;
  mret (if strict_eq s1 s2
        then "Singleton works, both variables contain the same instance."
        else "Singleton failed, variables contain different instances.").

(** A realm for the client: [%Object.prototype%], the class object
    [Singleton] and [Singleton.prototype]. *)
Definition realm : heap :=
  [ Obj None ∅; Obj (Some 0) {[ "prototype" := VRef 2 ]}; Obj (Some 0) ∅ ].

End Singleton.

(** ** Factory Method *)

Module FactoryMethod.

(** [interface Product { operation(): string }]: an object with that
    method. *)
Record Product : Type := { operation : unit -> string }.

Definition ConcreteProduct1 : Product :=
  {| operation := fun _ => "{Result of the ConcreteProduct1}" |}.

Definition ConcreteProduct2 : Product :=
  {| operation := fun _ => "{Result of the ConcreteProduct2}" |}.

(** [abstract class Creator]: a subclass supplies [factoryMethod]; the
    base class supplies [someOperation] on top of it. *)
Record Creator : Type := { factoryMethod : unit -> Product }.

Definition someOperation (this : Creator) : string :=
  let product := factoryMethod this tt in
  "Creator: The same creator's code has just worked with "
    +:+ operation product tt.

Definition ConcreteCreator1 : Creator :=
  {| factoryMethod := fun _ => ConcreteProduct1 |}.

Definition ConcreteCreator2 : Creator :=
  {| factoryMethod := fun _ => ConcreteProduct2 |}.

(** The lines printed by [clientCode(creator)]. *)
Definition clientCode (creator : Creator) : list string :=
  [ "Client: I'm not aware of the creator's class, but it still works.";
    someOperation creator ].

(** The lines printed by the whole script. *)
Definition main : list string :=
  ["App: Launched with the ConcreteCreator1."] ++ clientCode ConcreteCreator1
  ++ [EmptyString] ++
  ["App: Launched with the ConcreteCreator2."] ++ clientCode ConcreteCreator2.

(** [t] occurs in [s]. *)
Definition contains (s t : string) : Prop :=
  exists pre post, s = pre +:+ t +:+ post.

End FactoryMethod.

(** ** Facts about the heap operations *)

Module JSFacts.
Import JS.

(** A spread of a string copies its characters under their indices. *)
Example spread_of_string :
  own_enumerable [] (VStr "ab") = Some {[ "0" := VStr "a"; "1" := VStr "b" ]}.
Proof. vm_compute. reflexivity. Qed.

Lemma bind_Ok {A B} (m : M A) (f : A -> M B) h a h' :
  m h = Ok a h' -> (m ≫= f) h = f a h'.
Proof. intros E. unfold mbind, M_bind. by rewrite E. Qed.

Lemma bind_Throw {A B} (m : M A) (f : A -> M B) h e h' :
  m h = Throw e h' -> (m ≫= f) h = Throw e h'.
Proof. intros E. unfold mbind, M_bind. by rewrite E. Qed.

Lemma proto_okb_sound h : proto_okb h = true -> proto_ok h.
Proof.
  unfold proto_okb, proto_ok. intros Hb l o l' Hl Hp.
  rewrite forallb_forall in Hb.
  specialize (Hb (match proto o with
                  | Some l' => l' <? l
                  | None => true
                  end)).
  rewrite Hp in Hb. apply Nat.ltb_lt, Hb.
  apply list_elem_of_In, elem_of_lookup_imap. exists l, o.
  by rewrite Hp.
Qed.

(** More fuel and a longer heap do not change a lookup that succeeded. *)
Lemma get_fuel_ext n m h t l k v :
  get_fuel n h l k = Some v -> n <= m -> get_fuel m (h ++ t) l k = Some v.
Proof.
  revert m l. induction n as [|n IH]; intros m l Hg Hle; [done|].
  destruct m as [|m]; [lia|]. cbn [get_fuel] in *.
  destruct (h !! l) as [o|] eqn:Hl; [|done].
  rewrite (lookup_app_l_Some _ _ _ _ Hl).
  destruct (props o !! k); [done|].
  destruct (proto o); [|done].
  apply IH; [done|lia].
Qed.

Lemma get_ext h t l k v : get h l k = Some v -> get (h ++ t) l k = Some v.
Proof.
  unfold get. intros Hg. eapply get_fuel_ext; [done|].
  rewrite length_app. lia.
Qed.

(** With prototype links pointing backwards, the result of a lookup on an
    allocated object does not depend on the fuel, once there is more of it
    than the address. *)
Lemma get_fuel_stable h t k :
  proto_ok h ->
  forall n m l, l < n -> l < m -> l < length h ->
    get_fuel n (h ++ t) l k = get_fuel m h l k.
Proof.
  intros Hok. induction n as [|n IH]; intros m l Hn Hm Hl; [lia|].
  destruct m as [|m]; [lia|]. cbn [get_fuel].
  rewrite lookup_app_l by done.
  destruct (h !! l) as [o|] eqn:Ho; [|done].
  destruct (props o !! k); [done|].
  destruct (proto o) as [l'|] eqn:Hp; [|done].
  pose proof (Hok _ _ _ Ho Hp). apply IH; lia.
Qed.

Lemma get_fuel_same h k :
  proto_ok h ->
  forall n m l, l < n -> l < m -> l < length h ->
    get_fuel n h l k = get_fuel m h l k.
Proof.
  intros Hok n m l Hn Hm Hl.
  rewrite <- (app_nil_r h) at 1. by apply get_fuel_stable.
Qed.

Lemma get_fuel_total h k :
  proto_ok h ->
  forall n l, l < n -> l < length h -> is_Some (get_fuel n h l k).
Proof.
  intros Hok. induction n as [|n IH]; intros l Hn Hl; [lia|]. cbn [get_fuel].
  destruct (lookup_lt_is_Some_2 h l Hl) as [o Ho]. rewrite Ho.
  destruct (props o !! k); [by eexists|].
  destruct (proto o) as [l'|] eqn:Hp; [|by eexists].
  pose proof (Hok _ _ _ Ho Hp). apply IH; lia.
Qed.

Lemma get_total h l k : proto_ok h -> l < length h -> is_Some (get h l k).
Proof. intros. by apply get_fuel_total. Qed.

Lemma get_app h t l k :
  proto_ok h -> l < length h -> get (h ++ t) l k = get h l k.
Proof.
  intros Hok Hl. unfold get. apply get_fuel_stable; try done.
  rewrite length_app. lia.
Qed.

(** An own property is found without following any link. *)
Lemma get_own h l k v : own h l k = Some v -> get h l k = Some v.
Proof.
  unfold own, get. destruct (h !! l) as [o|] eqn:Ho; [|done]. intros Hk.
  pose proof (lookup_lt_Some _ _ _ Ho).
  destruct (length h); [lia|]. cbn [get_fuel]. by rewrite Ho, Hk.
Qed.

(** A property that is not own is looked up on the prototype. *)
Lemma get_inherit h l o l' k :
  proto_ok h -> h !! l = Some o -> props o !! k = None ->
  proto o = Some l' -> get h l k = get h l' k.
Proof.
  intros Hok Ho Hk Hp. unfold get.
  pose proof (lookup_lt_Some _ _ _ Ho). pose proof (Hok _ _ _ Ho Hp).
  rewrite (get_fuel_same h k Hok (length h) (S l) l) by lia.
  cbn [get_fuel]. rewrite Ho, Hk, Hp.
  apply get_fuel_same; try done; lia.
Qed.

(** Objects allocated after [h] live in the suffix. *)
Lemma lookup_new (h t : heap) i : (h ++ t) !! (length h + i) = t !! i.
Proof. by rewrite lookup_app_r, Nat.add_comm, Nat.add_sub by lia. Qed.

Lemma insert_new (h t : heap) i x :
  <[length h + i := x]> (h ++ t) = h ++ <[i := x]> t.
Proof.
  rewrite insert_app_r_alt by lia. by rewrite Nat.add_comm, Nat.add_sub.
Qed.

Lemma alloc_new (h t : heap) q :
  alloc q (h ++ t) = Ok (length h + length t) (h ++ (t ++ [Obj q ∅])).
Proof. unfold alloc. by rewrite length_app, app_assoc. Qed.

Lemma Get_old (h t : heap) l k v :
  get h l k = Some v -> Get l k (h ++ t) = Ok v (h ++ t).
Proof. intros Hg. unfold Get. by rewrite (get_ext _ t _ _ _ Hg). Qed.

Lemma Set_new (h t : heap) i o k v :
  t !! i = Some o ->
  Set_ (length h + i) k v (h ++ t)
  = Ok tt (h ++ <[i := Obj (proto o) (<[k := v]> (props o))]> t).
Proof. intros Hi. unfold Set_. by rewrite lookup_new, Hi, insert_new. Qed.

Lemma CopyDataProperties_new (h t : heap) i o v ps :
  own_enumerable (h ++ t) v = Some ps -> t !! i = Some o ->
  CopyDataProperties (length h + i) v (h ++ t)
  = Ok tt (h ++ <[i := Obj (proto o) (ps ∪ props o)]> t).
Proof.
  intros Hv Hi. unfold CopyDataProperties.
  by rewrite Hv, lookup_new, Hi, insert_new.
Qed.

Lemma own_enumerable_old (h t : heap) v ps :
  own_enumerable h v = Some ps -> own_enumerable (h ++ t) v = Some ps.
Proof.
  destruct v; try done. simpl.
  destruct (h !! l) as [o|] eqn:Hl; [|done].
  by rewrite (lookup_app_l_Some _ _ _ _ Hl).
Qed.

Lemma own_enumerable_ref (h : heap) l o :
  h !! l = Some o -> own_enumerable h (VRef l) = Some (props o).
Proof. intros Hl. simpl. by rewrite Hl. Qed.

(** An inherited property that the prototype holds as its own. *)
Lemma get_proto_own h l o l' k v :
  h !! l = Some o -> props o !! k = None -> proto o = Some l' ->
  own h l' k = Some v -> get h l k = Some v.
Proof.
  intros Hl Hk Hp Hv. unfold own in Hv.
  destruct (h !! l') as [o'|] eqn:Hl'; [|done].
  assert (l <> l') by (intros ->; congruence).
  pose proof (lookup_lt_Some _ _ _ Hl). pose proof (lookup_lt_Some _ _ _ Hl').
  unfold get. destruct (length h) as [|[|n]]; [lia..|].
  cbn [get_fuel]. by rewrite Hl, Hk, Hp, Hl', Hv.
Qed.

Lemma Set_old (h : heap) l o k v :
  h !! l = Some o ->
  Set_ l k v h = Ok tt (<[l := Obj (proto o) (<[k := v]> (props o))]> h).
Proof. intros Hl. unfold Set_. by rewrite Hl. Qed.

Lemma get_allocated h l k v : get h l k = Some v -> is_Some (h !! l).
Proof.
  unfold get. destruct (length h); [done|]. cbn [get_fuel].
  destruct (h !! l); [by eexists | done].
Qed.

(** A lookup on an object of [h] sees only the prototype links and the
    property [k] of the objects of [h]: a heap that agrees with [h] on
    those gives the same result. *)
Lemma get_fuel_similar h h2 k :
  proto_ok h ->
  (forall j o, h !! j = Some o ->
     exists o2, h2 !! j = Some o2 /\ proto o2 = proto o /\
                props o2 !! k = props o !! k) ->
  forall n m l, l < n -> l < m -> l < length h ->
    get_fuel n h2 l k = get_fuel m h l k.
Proof.
  intros Hok Hsim. induction n as [|n IH]; intros m l Hn Hm Hl; [lia|].
  destruct m as [|m]; [lia|]. cbn [get_fuel].
  destruct (lookup_lt_is_Some_2 h l Hl) as [o Ho].
  destruct (Hsim _ _ Ho) as (o2 & Ho2 & Hp2 & Hk2).
  rewrite Ho, Ho2, Hk2, Hp2.
  destruct (props o !! k); [done|].
  destruct (proto o) as [l'|] eqn:Hp; [|done].
  pose proof (Hok _ _ _ Ho Hp). apply IH; lia.
Qed.

Lemma get_similar h h2 l k :
  proto_ok h ->
  (forall j o, h !! j = Some o ->
     exists o2, h2 !! j = Some o2 /\ proto o2 = proto o /\
                props o2 !! k = props o !! k) ->
  l < length h -> get h2 l k = get h l k.
Proof.
  intros Hok Hsim Hl. unfold get.
  destruct (lookup_lt_is_Some_2 h l Hl) as [o Ho].
  destruct (Hsim _ _ Ho) as (o2 & Ho2 & _).
  pose proof (lookup_lt_Some _ _ _ Ho2).
  apply get_fuel_similar; try done; lia.
Qed.

(** Updating an object allocated after [h] is invisible from [h]. *)
Lemma get_insert_new (h t : heap) i x l k :
  proto_ok h -> l < length h ->
  get (<[length h + i := x]> (h ++ t)) l k = get h l k.
Proof.
  intros Hok Hl. apply get_similar; try done.
  intros j o Hj. exists o. split; [|done].
  pose proof (lookup_lt_Some _ _ _ Hj).
  rewrite list_lookup_insert_ne by lia. by apply lookup_app_l_Some.
Qed.

Lemma new_run (h t : heap) C v :
  get h C "prototype" = Some v ->
  exists q, new_ C (h ++ t) = Ok (length h + length t) (h ++ (t ++ [Obj q ∅])).
Proof.
  intros Hp. unfold new_.
  erewrite bind_Ok by (apply Get_old, Hp).
  destruct v; eexists; apply alloc_new.
Qed.

Lemma strict_eq_refs l l' : l <> l' -> strict_eq (VRef l) (VRef l') = false.
Proof. intros Hne. unfold strict_eq. rewrite bool_decide_eq_false. congruence. Qed.

(** [===] relates a value to itself, unless it is [NaN]. *)
Lemma strict_eq_same v : strict_eq v v = negb (bool_decide (v = VNaN)).
Proof. destruct v; simpl; by rewrite ?bool_decide_eq_true_2. Qed.

Lemma strict_eq_truthy v : truthy v = true -> strict_eq v v = true.
Proof. intros Ht. rewrite strict_eq_same. by destruct v. Qed.

End JSFacts.

(** ** Properties of [Prototype.clone] *)

Module PrototypeSpec.
Import JS JSFacts Prototype.

(** What [clone] does on a well-formed prototype: it returns the next free
    address and extends the heap by the four objects of [cloned]. *)
Lemma clone_run h p o lc vb ob :
  h !! p = Some o ->
  get h p "component" = Some (VRef lc) ->
  get h p "circularReference" = Some vb ->
  own_enumerable h vb = Some ob ->
  clone p h = Ok (length h) (h ++ cloned h p o lc ob).
Proof.
  intros Hp Hc Hb Hob. unfold clone.
  rewrite <- (app_nil_r h) at 1.
  erewrite bind_Ok by apply alloc_new.
  erewrite bind_Ok by (apply Get_old, Hc).
  erewrite bind_Ok by apply alloc_new.
  erewrite bind_Ok by (by apply (Set_new _ _ 0)).
  erewrite bind_Ok by apply alloc_new.
  erewrite bind_Ok by (apply Get_old, Hb).
  erewrite bind_Ok
    by (apply (CopyDataProperties_new _ _ 2);
        [by apply own_enumerable_old | done]).
  erewrite bind_Ok by apply alloc_new.
  erewrite bind_Ok
    by (apply (CopyDataProperties_new _ _ 3);
        [by apply own_enumerable_old, own_enumerable_ref | done]).
  erewrite bind_Ok by (by apply (Set_new _ _ 2)).
  erewrite bind_Ok by (by apply (Set_new _ _ 0)).
  simpl. unfold mret, M_ret, cloned.
  rewrite !(right_id_L ∅ (∪)), !Nat.add_0_r. done.
Qed.

(** The objects of [cloned], one by one. *)
Lemma cloned_lookup h p o lc ob i :
  (h ++ cloned h p o lc ob) !! (length h + i) = cloned h p o lc ob !! i.
Proof. apply lookup_new. Qed.

(** [clone] keeps the prototype links in order. *)
Lemma proto_ok_cloned h p o lc ob :
  proto_ok h -> p < length h -> lc < length h ->
  proto_ok (h ++ cloned h p o lc ob).
Proof.
  intros Hok Hp Hlc l x l' Hl Hx.
  destruct (decide (l < length h)) as [Hlt|Hge].
  - rewrite lookup_app_l in Hl by done. eauto.
  - replace l with (length h + (l - length h)) in Hl by lia.
    rewrite lookup_new in Hl.
    destruct (l - length h) as [|[|[|[|i]]]] eqn:Hi;
      simplify_eq/=; unfold ObjectPrototype; lia.
Qed.

(** The run of [clone] on a well-formed prototype, with everything the
    properties below need to know about the outcome. *)
Lemma clone_wf h p :
  wf_Prototype h p ->
  exists o lc lb ob,
    h !! p = Some o /\
    get h p "component" = Some (VRef lc) /\ lc < length h /\
    get h p "circularReference" = Some (VRef lb) /\ h !! lb = Some ob /\
    p < length h /\
    proto_ok (h ++ cloned h p o lc (props ob)) /\
    clone p h = Ok (length h) (h ++ cloned h p o lc (props ob)).
Proof.
  intros [Hok [o Ho] (lc & Hc & [oc Hoc]) (lb & Hb & [ob Hob])].
  pose proof (lookup_lt_Some _ _ _ Ho). pose proof (lookup_lt_Some _ _ _ Hoc).
  exists o, lc, lb, ob. split_and!; try done.
  - by apply proto_ok_cloned.
  - eapply clone_run; try done. by apply own_enumerable_ref.
Qed.

Lemma client_heap_wf : wf_Prototype client_heap 7.
Proof.
  split.
  - apply proto_okb_sound. vm_compute. reflexivity.
  - eexists. vm_compute. reflexivity.
  - exists 8. split; [vm_compute; reflexivity | eexists; vm_compute; reflexivity].
  - exists 9. split; [vm_compute; reflexivity | eexists; vm_compute; reflexivity].
Defined.

(** The client prints its four success lines. *)
Example prototype_client_prints :
  exists h,
    clientCode 1 3 5 realm
    = Ok [ "Primitive field values have been carried over to a clone. Yay!";
           "Simple component has been cloned. Yay!";
           "Component with back reference has been cloned. Yay!";
           "Component with back reference is linked to the clone. Yay!" ] h.
Proof. eexists. vm_compute. reflexivity. Qed.

(** The heap the client has built when it calls [p1.clone()] is
    [client_heap]. *)
Example client_heap_reached :
  (p1 ← new_ 1;
   Set_ p1 "primitive" (VNum 245);;
   date ← new_ 3;
   Set_ p1 "component" (VRef date);;
   holder ← new_ComponentWithBackReference 5 (VRef p1);
   Set_ p1 "circularReference" (VRef holder);;
   mret p1) realm = Ok 7 client_heap.
Proof. vm_compute. reflexivity. Qed.

(** What the outcome of [clone] holds at its four new addresses. *)
Lemma cloned_facts h p o lc ob :
  let h' := h ++ cloned h p o lc ob in
  let c := length h in
  own h' c "component" = Some (VRef (c + 1)) /\
  own h' c "circularReference" = Some (VRef (c + 2)) /\
  own h' c "primitive" = None /\
  h' !! c = Some (Obj (Some p)
                    (<["circularReference" := VRef (c + 2)]>
                       (<["component" := VRef (c + 1)]> ∅))) /\
  h' !! (c + 1) = Some (Obj (Some lc) ∅) /\
  h' !! (c + 2) = Some (Obj (Some ObjectPrototype)
                          (<["prototype" := VRef (c + 3)]> ob)) /\
  h' !! (c + 3) = Some (Obj (Some ObjectPrototype) (props o)).
Proof.
  intros h' c. subst h' c. unfold own.
  pose proof (cloned_lookup h p o lc ob 0) as H0.
  rewrite Nat.add_0_r in H0. rewrite H0, !cloned_lookup. simpl.
  split_and!; by simplify_map_eq.
Qed.

Lemma owner_of_clone h p o lc ob :
  owner_of (h ++ cloned h p o lc ob) (length h) = Some (VRef (length h + 3)).
Proof.
  destruct (cloned_facts h p o lc ob) as (_ & Hb & _ & _ & _ & Hh & _).
  unfold owner_of. cbn [get_path].
  rewrite (get_own _ _ _ _ Hb).
  erewrite get_own; [done|]. unfold own. rewrite Hh. simpl.
  by simplify_map_eq.
Qed.

(** C1.  The claim asks that the clone's holder reference the clone itself,
    [c.circularReference.prototype === c], as the comment in [clone] also
    says it should.  The code stores a fresh copy of the source there
    instead: for every well-formed prototype the owner recorded by the
    clone's holder is an object different from the clone. *)
Theorem clone_owner_is_not_the_clone h p :
  wf_Prototype h p ->
  exists c h' x,
    clone p h = Ok c h' /\
    owner_of h' c = Some (VRef x) /\ x <> c /\
    strict_eq (VRef x) (VRef c) = false.
Proof.
  intros Hwf.
  destruct (clone_wf h p Hwf) as (o & lc & lb & ob & _ & _ & _ & _ & _ & _ & _ & Hrun).
  eexists _, _, _. split; [exact Hrun|].
  split; [apply owner_of_clone|].
  assert (length h + 3 <> length h) by lia.
  split; [done|]. unfold strict_eq. rewrite bool_decide_eq_false. congruence.
Qed.

Lemma clone_owner_is_not_the_clone_client :
  exists c h' x,
    clone 7 client_heap = Ok c h' /\
    owner_of h' c = Some (VRef x) /\ x <> c /\
    strict_eq (VRef x) (VRef c) = false.
Proof. apply (clone_owner_is_not_the_clone client_heap 7), client_heap_wf. Defined.

(** C3.  For every well-formed prototype [p], the owner recorded by the
    holder of [clone(p)] is an object different from [p]:
    [clone(p).circularReference.prototype !== p]. *)
Theorem clone_owner_is_not_the_source h p :
  wf_Prototype h p ->
  exists c h' x,
    clone p h = Ok c h' /\
    owner_of h' c = Some (VRef x) /\ x <> p /\
    strict_eq (VRef x) (VRef p) = false.
Proof.
  intros Hwf.
  destruct (clone_wf h p Hwf) as (o & lc & lb & ob & _ & _ & _ & _ & _ & Hp & _ & Hrun).
  eexists _, _, _. split; [exact Hrun|].
  split; [apply owner_of_clone|].
  assert (length h + 3 <> p) by lia.
  split; [done|]. unfold strict_eq. rewrite bool_decide_eq_false. congruence.
Qed.

Lemma clone_owner_is_not_the_source_client :
  exists c h' x,
    clone 7 client_heap = Ok c h' /\
    owner_of h' c = Some (VRef x) /\ x <> 7 /\
    strict_eq (VRef x) (VRef 7) = false.
Proof. apply (clone_owner_is_not_the_source client_heap 7), client_heap_wf. Defined.

(** C4.  For every well-formed prototype [p] whose holder is [b],
    [clone(p).circularReference] is a new object [b'], different from [b]
    and from every object that existed before the call; its own fields are
    those of [b] except that [prototype] holds a new object [x], itself
    different from every object that existed before and from the clone,
    whose own fields are exactly the own fields of [p]. *)
Theorem clone_holder_is_fresh_copy h p :
  wf_Prototype h p ->
  exists c h' o b ob b' x,
    clone p h = Ok c h' /\
    h !! p = Some o /\
    get h p "circularReference" = Some (VRef b) /\ h !! b = Some ob /\
    get h' c "circularReference" = Some (VRef b') /\
    b' <> b /\ length h <= b' /\
    h' !! b' = Some (Obj (Some ObjectPrototype)
                       (<["prototype" := VRef x]> (props ob))) /\
    x <> c /\ x <> p /\ length h <= x /\
    h' !! x = Some (Obj (Some ObjectPrototype) (props o)) /\
    (forall k, own h' x k = own h p k).
Proof.
  intros Hwf.
  destruct (clone_wf h p Hwf)
    as (o & lc & lb & ob & Ho & _ & _ & Hb & Hob & Hp & _ & Hrun).
  destruct (cloned_facts h p o lc (props ob)) as (_ & Hcb & _ & _ & _ & Hh & Hx).
  pose proof (lookup_lt_Some _ _ _ Hob).
  exists (length h), (h ++ cloned h p o lc (props ob)), o, lb, ob,
    (length h + 2), (length h + 3).
  split_and!; try done; try lia.
  - by apply get_own.
  - intros k. unfold own. by rewrite Hx, Ho.
Qed.

Lemma clone_holder_is_fresh_copy_client :
  exists c h' o b ob b' x,
    clone 7 client_heap = Ok c h' /\
    client_heap !! 7 = Some o /\
    get client_heap 7 "circularReference" = Some (VRef b) /\
    client_heap !! b = Some ob /\
    get h' c "circularReference" = Some (VRef b') /\
    b' <> b /\ length client_heap <= b' /\
    h' !! b' = Some (Obj (Some ObjectPrototype)
                       (<["prototype" := VRef x]> (props ob))) /\
    x <> c /\ x <> 7 /\ length client_heap <= x /\
    h' !! x = Some (Obj (Some ObjectPrototype) (props o)) /\
    (forall k, own h' x k = own client_heap 7 k).
Proof. apply (clone_holder_is_fresh_copy client_heap 7), client_heap_wf. Defined.

(** C5, as stated, fails twice.  Value equality: the prototype of
    [nan_heap] is well-formed, its [primitive] is [NaN], and the client's
    test [p1.primitive === p2.primitive] on it and its clone is false.
    Carried over by value: the clone of the client's own [p1] has no
    [primitive] of its own, and once [p1.primitive = 0] is executed after
    the call the clone reads [0], not the [245] it read before. *)
Lemma clone_primitive_not_carried_by_value :
  (wf_Prototype nan_heap 7 /\
   exists c h',
     clone 7 nan_heap = Ok c h' /\
     same 7 ["primitive"] c ["primitive"] h' = Ok false h') /\
  (wf_Prototype client_heap 7 /\
   exists c h' h'',
     clone 7 client_heap = Ok c h' /\
     own h' c "primitive" = None /\
     get h' c "primitive" = Some (VNum 245) /\
     Set_ 7 "primitive" (VNum 0) h' = Ok tt h'' /\
     get h'' c "primitive" = Some (VNum 0)).
Proof.
  split; split.
  - split.
    + apply proto_okb_sound. vm_compute. reflexivity.
    + eexists. vm_compute. reflexivity.
    + exists 8. split; [vm_compute; reflexivity | eexists; vm_compute; reflexivity].
    + exists 9. split; [vm_compute; reflexivity | eexists; vm_compute; reflexivity].
  - eexists _, _. split; vm_compute; reflexivity.
  - apply client_heap_wf.
  - eexists _, _, _. split_and!; vm_compute; reflexivity.
Qed.

(** C5, amended.  For every well-formed prototype [p], reading [primitive]
    on [clone(p)] right after the call gives the very value that reading
    [p.primitive] gives, and [p.primitive === clone(p).primitive] holds
    unless that value is [NaN].  The scalar is not carried over: the clone
    is a new object whose prototype link is [p], it has no [primitive] of
    its own, and the read is delegated to [p]. *)
Theorem clone_primitive_read_from_source h p :
  wf_Prototype h p ->
  exists c h' oc v,
    clone p h = Ok c h' /\
    c <> p /\ length h <= c /\
    h' !! c = Some oc /\ proto oc = Some p /\
    own h' c "primitive" = None /\
    get h p "primitive" = Some v /\
    get h' p "primitive" = Some v /\
    get h' c "primitive" = Some v /\
    same p ["primitive"] c ["primitive"] h'
    = Ok (negb (bool_decide (v = VNaN))) h'.
Proof.
  intros Hwf.
  destruct (clone_wf h p Hwf)
    as (o & lc & lb & ob & Ho & _ & _ & _ & _ & Hp & Hok' & Hrun).
  destruct (cloned_facts h p o lc (props ob)) as (_ & _ & Hprim & Hc & _).
  destruct (get_total h p "primitive" (wf_links _ _ Hwf) Hp) as [v Hv].
  assert (Hv' : get (h ++ cloned h p o lc (props ob)) p "primitive" = Some v)
    by by apply get_ext.
  assert (Hcv : get (h ++ cloned h p o lc (props ob)) (length h) "primitive" = Some v).
  { unfold own in Hprim. rewrite Hc in Hprim.
    by rewrite (get_inherit _ _ _ p _ Hok' Hc Hprim). }
  eexists (length h), (h ++ cloned h p o lc (props ob)), _, v.
  split_and!; try done; try lia.
  unfold same. cbn [get_path]. by rewrite Hv', Hcv, strict_eq_same.
Qed.

Lemma clone_primitive_read_from_source_client :
  exists c h' oc v,
    clone 7 client_heap = Ok c h' /\
    c <> 7 /\ length client_heap <= c /\
    h' !! c = Some oc /\ proto oc = Some 7 /\
    own h' c "primitive" = None /\
    get client_heap 7 "primitive" = Some v /\
    get h' 7 "primitive" = Some v /\
    get h' c "primitive" = Some v /\
    same 7 ["primitive"] c ["primitive"] h'
    = Ok (negb (bool_decide (v = VNaN))) h'.
Proof. apply (clone_primitive_read_from_source client_heap 7), client_heap_wf. Defined.

(** C6.  For every well-formed prototype [p], [clone(p)] leaves every
    object that existed before the call as it was: the heap after the call
    is the heap before it followed by new objects, so each earlier object
    keeps its prototype link and its own fields, and every property read
    on an earlier object ([p.primitive], [p.component],
    [p.circularReference] and the fields of these two) gives the same
    value as before. *)
Theorem clone_does_not_mutate h p :
  wf_Prototype h p ->
  exists c h',
    clone p h = Ok c h' /\
    take (length h) h' = h /\
    (forall l, l < length h -> h' !! l = h !! l) /\
    (forall l k, l < length h -> get h' l k = get h l k).
Proof.
  intros Hwf.
  destruct (clone_wf h p Hwf) as (o & lc & lb & ob & _ & _ & _ & _ & _ & _ & _ & Hrun).
  eexists _, _. split; [exact Hrun|]. split_and!.
  - by rewrite take_app_length.
  - intros l Hl. by apply lookup_app_l.
  - intros l k Hl. apply get_app; [apply Hwf | done].
Qed.

Lemma clone_does_not_mutate_client :
  exists c h',
    clone 7 client_heap = Ok c h' /\
    take (length client_heap) h' = client_heap /\
    (forall l, l < length client_heap -> h' !! l = client_heap !! l) /\
    (forall l k, l < length client_heap -> get h' l k = get client_heap l k).
Proof. apply (clone_does_not_mutate client_heap 7), client_heap_wf. Defined.

(** A component that is not an object (and not [null]) makes [clone] throw
    at [Object.create], after the clone object has been allocated and
    before anything is returned. *)
Lemma clone_throws h p v :
  get h p "component" = Some v ->
  (forall l, v <> VRef l) -> v <> VNull ->
  clone p h = Throw TypeError (h ++ [Obj (Some p) ∅]).
Proof.
  intros Hc Href Hnull. unfold clone.
  rewrite <- (app_nil_r h) at 1.
  erewrite bind_Ok by apply alloc_new.
  erewrite bind_Ok by (apply Get_old, Hc).
  apply bind_Throw. destruct v; try done. by destruct (Href l).
Qed.

(** C2, as stated, fails: the component of [dated_heap]'s prototype has
    the own field [year], and the component of its clone has no own field
    [year]. *)
Lemma clone_component_field_not_copied :
  exists c h' lc lc',
    wf_Prototype dated_heap 7 /\
    clone 7 dated_heap = Ok c h' /\
    get dated_heap 7 "component" = Some (VRef lc) /\
    get h' c "component" = Some (VRef lc') /\
    own dated_heap lc "year" = Some (VNum 2024) /\
    own h' lc' "year" = None.
Proof.
  exists 10, (dated_heap ++ cloned dated_heap 7
                (Obj (Some 2) {[ "primitive" := VNum 245; "component" := VRef 8;
                                 "circularReference" := VRef 9 ]})
                8 {[ "prototype" := VRef 7 ]}), 8, 11.
  split_and!; try (vm_compute; reflexivity).
  split.
  - apply proto_okb_sound. vm_compute. reflexivity.
  - eexists. vm_compute. reflexivity.
  - exists 8. split; [vm_compute; reflexivity | eexists; vm_compute; reflexivity].
  - exists 9. split; [vm_compute; reflexivity | eexists; vm_compute; reflexivity].
Qed.

(** C2, amended.  For every well-formed prototype [p] with component [lc],
    [clone(p).component] is a new object [lc'], different from [lc].  The
    fields of [lc] are not copied into it: [lc'] has no own field at all.
    Its prototype link is [lc], so each own field of [lc] is read on [lc']
    with the same value, and the two objects read field-equal content one
    level deep. *)
Theorem clone_component_delegates h p :
  wf_Prototype h p ->
  exists c h' lc lc',
    clone p h = Ok c h' /\
    get h p "component" = Some (VRef lc) /\
    get h' c "component" = Some (VRef lc') /\
    lc' <> lc /\ length h <= lc' /\
    h' !! lc' = Some (Obj (Some lc) ∅) /\
    (forall k, own h' lc' k = None) /\
    (forall k v, own h lc k = Some v ->
                 get h lc k = Some v /\ get h' lc' k = Some v).
Proof.
  intros Hwf.
  destruct (clone_wf h p Hwf)
    as (o & lc & lb & ob & Ho & Hc & Hlc & _ & _ & Hp & Hok' & Hrun).
  destruct (cloned_facts h p o lc (props ob)) as (Hcc & _ & _ & _ & Hn & _).
  exists (length h), (h ++ cloned h p o lc (props ob)), lc, (length h + 1).
  split_and!; try done; try lia.
  - by apply get_own.
  - intros k. unfold own. by rewrite Hn.
  - intros k v Hv. split; [by apply get_own|].
    eapply get_proto_own; [exact Hn|done|done|].
    unfold own in *. destruct (h !! lc) as [x|] eqn:Hx; [|done].
    by rewrite (lookup_app_l_Some _ _ _ _ Hx).
Qed.

Lemma clone_component_delegates_client :
  exists c h' lc lc',
    clone 7 client_heap = Ok c h' /\
    get client_heap 7 "component" = Some (VRef lc) /\
    get h' c "component" = Some (VRef lc') /\
    lc' <> lc /\ length client_heap <= lc' /\
    h' !! lc' = Some (Obj (Some lc) ∅) /\
    (forall k, own h' lc' k = None) /\
    (forall k v, own client_heap lc k = Some v ->
                 get client_heap lc k = Some v /\ get h' lc' k = Some v).
Proof. apply (clone_component_delegates client_heap 7), client_heap_wf. Defined.

(** C7, as stated, fails: the prototype of [no_holder_heap] has no
    [circularReference], and [clone] returns a clone for it without any
    error. *)
Lemma clone_without_holder_returns :
  get no_holder_heap 7 "circularReference" = Some VUndef /\
  (exists c h', clone 7 no_holder_heap = Ok c h') /\
  (forall e h', clone 7 no_holder_heap <> Throw e h').
Proof.
  split; [vm_compute; reflexivity|].
  assert (exists c h', clone 7 no_holder_heap = Ok c h') as (c & h' & E)
    by (eexists _, _; vm_compute; reflexivity).
  split; [by eauto|]. intros e h''. by rewrite E.
Qed.

(** C7, amended.  On a well-formed prototype [clone] is total: it returns
    a clone whose own [component] and [circularReference] are allocated
    objects, the holder having its [prototype] field.  When [component] is
    missing, [clone] throws a [TypeError] and returns nothing.  When
    [component] is an object and [circularReference] is missing, [clone]
    raises no error: it returns a clone whose holder has the [prototype]
    field only. *)
Theorem clone_total_and_failure_modes h p :
  (wf_Prototype h p ->
   exists c h' lc' b' x,
     clone p h = Ok c h' /\
     own h' c "component" = Some (VRef lc') /\ is_Some (h' !! lc') /\
     own h' c "circularReference" = Some (VRef b') /\ is_Some (h' !! b') /\
     own h' b' "prototype" = Some (VRef x) /\ is_Some (h' !! x)) /\
  (get h p "component" = Some VUndef ->
   exists h', clone p h = Throw TypeError h') /\
  (forall lc,
     is_Some (h !! p) ->
     get h p "component" = Some (VRef lc) ->
     get h p "circularReference" = Some VUndef ->
     exists c h' b' x,
       clone p h = Ok c h' /\
       own h' c "circularReference" = Some (VRef b') /\
       h' !! b' = Some (Obj (Some ObjectPrototype) {[ "prototype" := VRef x ]})).
Proof.
  split_and!.
  - intros Hwf.
    destruct (clone_wf h p Hwf)
      as (o & lc & lb & ob & _ & _ & _ & _ & _ & _ & _ & Hrun).
    destruct (cloned_facts h p o lc (props ob))
      as (Hcc & Hcb & _ & _ & Hn & Hh & Hx).
    eexists _, _, _, _, _. split; [exact Hrun|].
    split_and!; try done.
    unfold own. rewrite Hh. simpl. by simplify_map_eq.
  - intros Hc. eexists. by eapply clone_throws.
  - intros lc [o Ho] Hc Hb.
    destruct (cloned_facts h p o lc ∅) as (_ & Hcb & _ & _ & _ & Hh & _).
    eexists _, _, _, _. split; [by eapply (clone_run h p o lc VUndef ∅)|].
    split; [exact Hcb|]. exact Hh.
Qed.

Lemma clone_total_and_failure_modes_cases :
  (exists c h' lc' b' x,
     clone 7 client_heap = Ok c h' /\
     own h' c "component" = Some (VRef lc') /\ is_Some (h' !! lc') /\
     own h' c "circularReference" = Some (VRef b') /\ is_Some (h' !! b') /\
     own h' b' "prototype" = Some (VRef x) /\ is_Some (h' !! x)) /\
  (exists h', clone 7 no_component_heap = Throw TypeError h') /\
  (exists c h' b' x,
     clone 7 no_holder_heap = Ok c h' /\
     own h' c "circularReference" = Some (VRef b') /\
     h' !! b' = Some (Obj (Some ObjectPrototype) {[ "prototype" := VRef x ]})).
Proof.
  split_and!.
  - apply (clone_total_and_failure_modes client_heap 7), client_heap_wf.
  - apply (clone_total_and_failure_modes no_component_heap 7).
    vm_compute. reflexivity.
  - apply (clone_total_and_failure_modes no_holder_heap 7) with (lc := 8).
    + eexists. vm_compute. reflexivity.
    + vm_compute. reflexivity.
    + vm_compute. reflexivity.
Defined.



(** *** Further properties of [clone] *)

(** After [clone], the source is as well-formed as before and the clone is
    well-formed too. *)
Lemma wf_after_clone h p o lc ob :
  wf_Prototype h p -> h !! p = Some o -> lc < length h ->
  wf_Prototype (h ++ cloned h p o lc ob) p /\
  wf_Prototype (h ++ cloned h p o lc ob) (length h).
Proof.
  intros Hwf Ho Hlc.
  pose proof (lookup_lt_Some _ _ _ Ho) as Hp.
  assert (Hok' : proto_ok (h ++ cloned h p o lc ob))
    by (apply proto_ok_cloned; [apply Hwf | done..]).
  destruct (cloned_facts h p o lc ob) as (Hcc & Hcb & _ & Hc & Hn & Hh & _).
  split; split; try done.
  - eexists. by apply lookup_app_l_Some.
  - destruct (wf_component _ _ Hwf) as (a & Ha & [oa Hoa]).
    exists a. split; [by apply get_ext|].
    eexists. by apply lookup_app_l_Some.
  - destruct (wf_circularReference _ _ Hwf) as (b & Hb & [ob' Hob]).
    exists b. split; [by apply get_ext|].
    eexists. by apply lookup_app_l_Some.
  - exists (length h + 1). split; [by apply get_own | by eexists].
  - exists (length h + 2). split; [by apply get_own | by eexists].
Qed.

(** What is not [component] or [circularReference] is read on the
    source. *)
Lemma cloned_reads_through h p o lc ob k :
  proto_ok h -> h !! p = Some o -> lc < length h ->
  k <> "component" -> k <> "circularReference" ->
  get (h ++ cloned h p o lc ob) (length h) k = get h p k.
Proof.
  intros Hok Ho Hlc Hk1 Hk2.
  pose proof (lookup_lt_Some _ _ _ Ho) as Hp.
  destruct (cloned_facts h p o lc ob) as (_ & _ & _ & Hc & _).
  rewrite (get_inherit _ _ _ p k (proto_ok_cloned h p o lc ob Hok Hp Hlc) Hc);
    [by apply get_app | by simplify_map_eq | done].
Qed.

(** X1.  [clone] can be repeated.  On a well-formed prototype it returns
    a new object whose own [component] and own [circularReference] are new
    allocated objects; that object is itself a well-formed prototype, the
    source is still one in the resulting heap, and [clone] returns
    normally again on either of them. *)
Theorem clone_keeps_well_formed h p :
  wf_Prototype h p ->
  exists c h' a b,
    clone p h = Ok c h' /\
    c <> p /\ length h <= c /\
    own h' c "component" = Some (VRef a) /\
    length h <= a /\ is_Some (h' !! a) /\
    own h' c "circularReference" = Some (VRef b) /\
    length h <= b /\ is_Some (h' !! b) /\
    wf_Prototype h' c /\ wf_Prototype h' p /\
    (exists c2 h2, clone c h' = Ok c2 h2) /\
    (exists c3 h3, clone p h' = Ok c3 h3).
Proof.
  intros Hwf.
  destruct (clone_wf h p Hwf)
    as (o & lc & lb & ob & Ho & _ & Hlc & _ & _ & Hlt & _ & Hrun).
  destruct (wf_after_clone h p o lc (props ob) Hwf Ho Hlc) as [Hp Hc].
  destruct (cloned_facts h p o lc (props ob))
    as (Hcc & Hcb & _ & _ & Hn & Hh & _).
  exists (length h), (h ++ cloned h p o lc (props ob)),
    (length h + 1), (length h + 2).
  split_and!; try done; try lia.
  - destruct (clone_wf _ _ Hc) as (? & ? & ? & ? & Hr). eexists _, _. apply Hr.
  - destruct (clone_wf _ _ Hp) as (? & ? & ? & ? & Hr). eexists _, _. apply Hr.
Qed.

Lemma clone_keeps_well_formed_client :
  exists c h' a b,
    clone 7 client_heap = Ok c h' /\
    c <> 7 /\ length client_heap <= c /\
    own h' c "component" = Some (VRef a) /\
    length client_heap <= a /\ is_Some (h' !! a) /\
    own h' c "circularReference" = Some (VRef b) /\
    length client_heap <= b /\ is_Some (h' !! b) /\
    wf_Prototype h' c /\ wf_Prototype h' 7 /\
    (exists c2 h2, clone c h' = Ok c2 h2) /\
    (exists c3 h3, clone 7 h' = Ok c3 h3).
Proof. apply (clone_keeps_well_formed client_heap 7), client_heap_wf. Defined.

(** X2.  The clone is a new object that holds nothing but [component]
    and [circularReference].  For every other property name, [__proto__]
    apart (it is an accessor, answered with the receiver's own prototype
    link), the clone has no property of its own, and the read on the
    clone right after the call gives what the same read on the source
    gives: fields, methods and absent properties alike. *)
Theorem clone_reads_through_to_source h p :
  wf_Prototype h p ->
  exists c h' oc,
    clone p h = Ok c h' /\
    c <> p /\ length h <= c /\
    h' !! c = Some oc /\ proto oc = Some p /\
    forall k, k <> "component" -> k <> "circularReference" ->
              k <> "__proto__" ->
              own h' c k = None /\ get h' c k = get h p k.
Proof.
  intros Hwf.
  destruct (clone_wf h p Hwf)
    as (o & lc & lb & ob & Ho & _ & Hlc & _ & _ & Hlt & _ & Hrun).
  destruct (cloned_facts h p o lc (props ob)) as (_ & _ & _ & Hc & _).
  eexists _, _, _. split; [exact Hrun|].
  split_and!; try done; try lia.
  intros k Hk1 Hk2 _. split.
  - unfold own. rewrite Hc. simpl. by simplify_map_eq.
  - apply cloned_reads_through; try done. apply Hwf.
Qed.

Lemma clone_reads_through_to_source_client :
  exists c h' oc,
    clone 7 client_heap = Ok c h' /\
    c <> 7 /\ length client_heap <= c /\
    h' !! c = Some oc /\ proto oc = Some 7 /\
    forall k, k <> "component" -> k <> "circularReference" ->
              k <> "__proto__" ->
              own h' c k = None /\ get h' c k = get client_heap 7 k.
Proof. apply (clone_reads_through_to_source client_heap 7), client_heap_wf. Defined.

(** X3.  Assignments on the clone never reach the source.  After the call,
    [clone.k = v], or [clone.component.k = v], for any property name [k]
    other than [__proto__] (whose assignment is answered by a setter) makes
    that read give [v] and leaves every property read on every object that
    existed before the call as it was. *)
Theorem clone_writes_stay_on_clone h p :
  wf_Prototype h p ->
  exists c h' lc',
    clone p h = Ok c h' /\
    c <> p /\ length h <= c /\
    own h' c "component" = Some (VRef lc') /\ length h <= lc' /\
    (forall k v, k <> "__proto__" -> exists h'',
        Set_ c k v h' = Ok tt h'' /\
        get h'' c k = Some v /\
        forall l k', l < length h -> get h'' l k' = get h l k') /\
    (forall k v, k <> "__proto__" -> exists h'',
        Set_ lc' k v h' = Ok tt h'' /\
        get h'' lc' k = Some v /\
        forall l k', l < length h -> get h'' l k' = get h l k').
Proof.
  intros Hwf.
  destruct (clone_wf h p Hwf)
    as (o & lc & lb & ob & Ho & _ & Hlc & _ & _ & Hlt & _ & Hrun).
  destruct (cloned_facts h p o lc (props ob)) as (Hcc & _ & _ & Hc & Hn & _).
  assert (Hlen : length (h ++ cloned h p o lc (props ob)) = length h + 4)
    by by rewrite length_app.
  exists (length h), (h ++ cloned h p o lc (props ob)), (length h + 1).
  split_and!; try done; try lia.
  - intros k v _. eexists. split; [by apply Set_old|]. split.
    + apply get_own. unfold own.
      rewrite list_lookup_insert_eq by lia. simpl. by simplify_map_eq.
    + intros l k' Hl. rewrite <- (Nat.add_0_r (length h)) at 1.
      apply get_insert_new; [apply Hwf | done].
  - intros k v _. eexists. split; [by apply Set_old|]. split.
    + apply get_own. unfold own.
      rewrite list_lookup_insert_eq by lia. simpl. by simplify_map_eq.
    + intros l k' Hl. apply get_insert_new; [apply Hwf | done].
Qed.

Lemma clone_writes_stay_on_clone_client :
  exists c h' lc',
    clone 7 client_heap = Ok c h' /\
    c <> 7 /\ length client_heap <= c /\
    own h' c "component" = Some (VRef lc') /\ length client_heap <= lc' /\
    (forall k v, k <> "__proto__" -> exists h'',
        Set_ c k v h' = Ok tt h'' /\
        get h'' c k = Some v /\
        forall l k', l < length client_heap -> get h'' l k' = get client_heap l k') /\
    (forall k v, k <> "__proto__" -> exists h'',
        Set_ lc' k v h' = Ok tt h'' /\
        get h'' lc' k = Some v /\
        forall l k', l < length client_heap -> get h'' l k' = get client_heap l k').
Proof. apply (clone_writes_stay_on_clone client_heap 7), client_heap_wf. Defined.

(** The run of [clone] whenever [Object.create] accepts the component:
    [q] is the prototype link it gives to the new component. *)
Lemma clone_run_gen h p o vc q vb ob :
  h !! p = Some o ->
  get h p "component" = Some vc ->
  Object_create vc = alloc q ->
  get h p "circularReference" = Some vb ->
  own_enumerable h vb = Some ob ->
  clone p h
  = Ok (length h)
       (h ++ [ Obj (Some p)
                   (<["circularReference" := VRef (length h + 2)]>
                      (<["component" := VRef (length h + 1)]> ∅));
               Obj q ∅;
               Obj (Some ObjectPrototype)
                   (<["prototype" := VRef (length h + 3)]> ob);
               Obj (Some ObjectPrototype) (props o) ]).
Proof.
  intros Hp Hc Hq Hb Hob. unfold clone.
  rewrite <- (app_nil_r h) at 1.
  erewrite bind_Ok by apply alloc_new.
  erewrite bind_Ok by (apply Get_old, Hc).
  rewrite Hq.
  erewrite bind_Ok by apply alloc_new.
  erewrite bind_Ok by (by apply (Set_new _ _ 0)).
  erewrite bind_Ok by apply alloc_new.
  erewrite bind_Ok by (apply Get_old, Hb).
  erewrite bind_Ok
    by (apply (CopyDataProperties_new _ _ 2);
        [by apply own_enumerable_old | done]).
  erewrite bind_Ok by apply alloc_new.
  erewrite bind_Ok
    by (apply (CopyDataProperties_new _ _ 3);
        [by apply own_enumerable_old, own_enumerable_ref | done]).
  erewrite bind_Ok by (by apply (Set_new _ _ 2)).
  erewrite bind_Ok by (by apply (Set_new _ _ 0)).
  simpl. unfold mret, M_ret.
  rewrite !(right_id_L ∅ (∪)), !Nat.add_0_r. done.
Qed.

(** X4.  Two clones of the same prototype share nothing new: cloning a
    well-formed [p] twice gives two different objects, with two different
    components and two different holders, and the second call leaves the
    first clone as it was. *)
Theorem clone_twice_is_fresh h p :
  wf_Prototype h p ->
  exists c1 h1 c2 h2 a1 a2 b1 b2,
    clone p h = Ok c1 h1 /\ clone p h1 = Ok c2 h2 /\
    c1 <> c2 /\
    own h2 c1 "component" = Some (VRef a1) /\
    own h2 c2 "component" = Some (VRef a2) /\ a1 <> a2 /\
    own h2 c1 "circularReference" = Some (VRef b1) /\
    own h2 c2 "circularReference" = Some (VRef b2) /\ b1 <> b2 /\
    take (length h1) h2 = h1.
Proof.
  intros Hwf.
  destruct (clone_wf h p Hwf)
    as (o & lc & lb & ob & Ho & _ & Hlc & _ & _ & _ & _ & Hrun).
  destruct (wf_after_clone h p o lc (props ob) Hwf Ho Hlc) as [Hwf1 _].
  destruct (cloned_facts h p o lc (props ob)) as (Hcc & Hcb & _).
  set (h1 := h ++ cloned h p o lc (props ob)) in *.
  assert (Hlen : length h1 = length h + 4) by (unfold h1; by rewrite length_app).
  destruct (clone_wf h1 p Hwf1)
    as (o' & lc' & lb' & ob' & _ & _ & _ & _ & _ & _ & _ & Hrun').
  destruct (cloned_facts h1 p o' lc' (props ob')) as (Hcc' & Hcb' & _).
  exists (length h), h1, (length h1), (h1 ++ cloned h1 p o' lc' (props ob')),
    (length h + 1), (length h1 + 1), (length h + 2), (length h1 + 2).
  split_and!; try done; try lia.
  - unfold own in *. destruct (h1 !! length h) as [x|] eqn:Hx; [|done].
    by rewrite (lookup_app_l_Some _ _ _ _ Hx).
  - unfold own in *. destruct (h1 !! length h) as [x|] eqn:Hx; [|done].
    by rewrite (lookup_app_l_Some _ _ _ _ Hx).
  - by rewrite take_app_length.
Qed.

Lemma clone_twice_is_fresh_client :
  exists c1 h1 c2 h2 a1 a2 b1 b2,
    clone 7 client_heap = Ok c1 h1 /\ clone 7 h1 = Ok c2 h2 /\
    c1 <> c2 /\
    own h2 c1 "component" = Some (VRef a1) /\
    own h2 c2 "component" = Some (VRef a2) /\ a1 <> a2 /\
    own h2 c1 "circularReference" = Some (VRef b1) /\
    own h2 c2 "circularReference" = Some (VRef b2) /\ b1 <> b2 /\
    take (length h1) h2 = h1.
Proof. apply (clone_twice_is_fresh client_heap 7), client_heap_wf. Defined.

(** X5.  A clone of a clone.  Cloning the clone of a well-formed [p] still
    reads [primitive] from [p], two links up; but the copy of the source
    that its holder keeps is a copy of the first clone's own fields, which
    are [component] and [circularReference] only: that copy has no
    [primitive] of its own. *)
Theorem clone_of_clone h p :
  wf_Prototype h p ->
  exists c1 h1 c2 h2 x v,
    clone p h = Ok c1 h1 /\ clone c1 h1 = Ok c2 h2 /\
    get h p "primitive" = Some v /\
    get h2 c2 "primitive" = Some v /\
    owner_of h2 c2 = Some (VRef x) /\
    (forall k, own h2 x k = own h1 c1 k) /\
    own h2 x "primitive" = None /\
    is_Some (own h2 x "component") /\
    is_Some (own h2 x "circularReference").
Proof.
  intros Hwf.
  destruct (clone_wf h p Hwf)
    as (o & lc & lb & ob & Ho & _ & Hlc & _ & _ & Hp & _ & Hrun).
  destruct (wf_after_clone h p o lc (props ob) Hwf Ho Hlc) as [_ Hwf1].
  destruct (cloned_facts h p o lc (props ob)) as (Hcc & Hcb & Hprim & _).
  pose proof (cloned_reads_through h p o lc (props ob) "primitive"
                (wf_links _ _ Hwf) Ho Hlc) as Hr1.
  set (h1 := h ++ cloned h p o lc (props ob)) in *.
  destruct (clone_wf h1 (length h) Hwf1)
    as (o1 & lc1 & lb1 & ob1 & Ho1 & _ & Hlc1 & _ & _ & _ & _ & Hrun1).
  destruct (cloned_facts h1 (length h) o1 lc1 (props ob1))
    as (_ & _ & _ & _ & _ & _ & Hx).
  pose proof (cloned_reads_through h1 (length h) o1 lc1 (props ob1) "primitive"
                (wf_links _ _ Hwf1) Ho1 Hlc1) as Hr2.
  destruct (get_total h p "primitive" (wf_links _ _ Hwf) Hp) as [v Hv].
  assert (Hown : forall k,
             own (h1 ++ cloned h1 (length h) o1 lc1 (props ob1))
                 (length h1 + 3) k = own h1 (length h) k).
  { intros k. unfold own. by rewrite Hx, Ho1. }
  exists (length h), h1, (length h1),
    (h1 ++ cloned h1 (length h) o1 lc1 (props ob1)), (length h1 + 3), v.
  split_and!; try done.
  - rewrite Hr2, Hr1 by done. done.
  - apply owner_of_clone.
  - by rewrite Hown.
  - rewrite Hown, Hcc. by eexists.
  - rewrite Hown, Hcb. by eexists.
Qed.

Lemma clone_of_clone_client :
  exists c1 h1 c2 h2 x v,
    clone 7 client_heap = Ok c1 h1 /\ clone c1 h1 = Ok c2 h2 /\
    get client_heap 7 "primitive" = Some v /\
    get h2 c2 "primitive" = Some v /\
    owner_of h2 c2 = Some (VRef x) /\
    (forall k, own h2 x k = own h1 c1 k) /\
    own h2 x "primitive" = None /\
    is_Some (own h2 x "component") /\
    is_Some (own h2 x "circularReference").
Proof. apply (clone_of_clone client_heap 7), client_heap_wf. Defined.

(** X6.  A [null] component is accepted: [Object.create(null)] succeeds,
    so [clone] returns normally and the clone's component is a new object
    without prototype and without fields, on which every property reads
    [undefined]. *)
Theorem clone_null_component h p vb :
  is_Some (h !! p) ->
  get h p "component" = Some VNull ->
  get h p "circularReference" = Some vb ->
  is_Some (own_enumerable h vb) ->
  exists c h' lc',
    clone p h = Ok c h' /\
    own h' c "component" = Some (VRef lc') /\
    h' !! lc' = Some (Obj None ∅) /\
    forall k, get h' lc' k = Some VUndef.
Proof.
  intros [o Ho] Hc Hb [ob Hob].
  eexists _, _, (length h + 1).
  split; [by eapply (clone_run_gen h p o VNull None vb ob)|].
  assert (Hn : forall (t : heap), (h ++ t) !! (length h + 1) = t !! 1)
    by (intros t; apply lookup_new).
  split_and!.
  - unfold own. rewrite <- (Nat.add_0_r (length h)) at 1.
    rewrite lookup_new. simpl. by simplify_map_eq.
  - by rewrite Hn.
  - intros k. unfold get. rewrite length_app. simpl.
    replace (length h + 4) with (S (length h + 3)) by lia.
    cbn [get_fuel]. by rewrite Hn.
Qed.

Lemma clone_null_component_example :
  exists c h' lc',
    clone 7 null_component_heap = Ok c h' /\
    own h' c "component" = Some (VRef lc') /\
    h' !! lc' = Some (Obj None ∅) /\
    forall k, get h' lc' k = Some VUndef.
Proof.
  apply (clone_null_component null_component_heap 7 (VRef 8)).
  - eexists. vm_compute. reflexivity.
  - vm_compute. reflexivity.
  - vm_compute. reflexivity.
  - eexists. vm_compute. reflexivity.
Defined.

(** X7.  The only error of [clone].  On an allocated object whose
    [circularReference] can be spread, [clone] returns normally exactly
    when [component] is an object or [null], with four new objects added;
    for any other component ([undefined], a boolean, a number, a string)
    it throws a [TypeError]; it is never stuck; and in both cases the
    objects that existed before the call are unchanged. *)
Theorem clone_outcome h p vc vb :
  is_Some (h !! p) ->
  get h p "component" = Some vc ->
  get h p "circularReference" = Some vb ->
  is_Some (own_enumerable h vb) ->
  match clone p h with
  | Ok c h' =>
      ((exists l, vc = VRef l) \/ vc = VNull) /\
      c = length h /\ take (length h) h' = h /\ length h' = length h + 4
  | Throw e h' =>
      (forall l, vc <> VRef l) /\ vc <> VNull /\
      e = TypeError /\ take (length h) h' = h
  | Stuck => False
  end.
Proof.
  intros [o Ho] Hc Hb [ob Hob].
  destruct vc as [| |b|n| |s|l].
  2: { rewrite (clone_run_gen h p o VNull None vb ob) by done.
       rewrite take_app_length, length_app. eauto. }
  6: { rewrite (clone_run_gen h p o (VRef l) (Some l) vb ob) by done.
       rewrite take_app_length, length_app. eauto 6. }
  all: rewrite (clone_throws h p _ Hc) by done;
    by rewrite take_app_length.
Qed.

Lemma clone_outcome_example :
  match clone 7 no_component_heap with
  | Ok c h' =>
      ((exists l, VUndef = VRef l) \/ VUndef = VNull) /\
      c = length no_component_heap /\
      take (length no_component_heap) h' = no_component_heap /\
      length h' = length no_component_heap + 4
  | Throw e h' =>
      (forall l, VUndef <> VRef l) /\ VUndef <> VNull /\
      e = TypeError /\ take (length no_component_heap) h' = no_component_heap
  | Stuck => False
  end.
Proof.
  apply (clone_outcome no_component_heap 7 VUndef (VRef 8)).
  - eexists. vm_compute. reflexivity.
  - vm_compute. reflexivity.
  - vm_compute. reflexivity.
  - eexists. vm_compute. reflexivity.
Defined.

Lemma same_run h a ks b ks' v w :
  get_path h (VRef a) ks = Some v -> get_path h (VRef b) ks' = Some w ->
  same a ks b ks' h = Ok (strict_eq v w) h.
Proof. intros Ha Hb. unfold same. by rewrite Ha, Hb. Qed.

(** X8.  The client, in any realm.  Whatever the heap it starts in, as
    long as the three class objects have a [prototype] property to read,
    [clientCode] runs to the end and prints the four success lines, the
    last one included: the test behind it compares the clone's owner with
    the original's owner, not with the clone. *)
Theorem clientCode_reports_success h CPrototype CDate CHolder v1 v2 v3 :
  get h CPrototype "prototype" = Some v1 ->
  get h CDate "prototype" = Some v2 ->
  get h CHolder "prototype" = Some v3 ->
  exists h',
    clientCode CPrototype CDate CHolder h
    = Ok [ "Primitive field values have been carried over to a clone. Yay!";
           "Simple component has been cloned. Yay!";
           "Component with back reference has been cloned. Yay!";
           "Component with back reference is linked to the clone. Yay!" ] h'.
Proof.
  intros H1 H2 H3. unfold clientCode.
  destruct (new_run h [] _ _ H1) as [q1 Hn1]. simpl in Hn1.
  rewrite <- (app_nil_r h).
  erewrite bind_Ok by exact Hn1.
  erewrite bind_Ok by (by apply (Set_new _ _ 0)). simpl.
  match goal with |- context [h ++ ?t] =>
    destruct (new_run h t _ _ H2) as [q2 Hn2] end. simpl in Hn2.
  erewrite bind_Ok by exact Hn2.
  erewrite bind_Ok by (by apply (Set_new _ _ 0)). simpl.
  match goal with |- context [h ++ ?t] =>
    destruct (new_run h t _ _ H3) as [q3 Hn3] end. simpl in Hn3.
  unfold new_ComponentWithBackReference.
  erewrite bind_Ok; cycle 1.
  { erewrite bind_Ok by exact Hn3.
    erewrite bind_Ok by (by apply (Set_new _ _ 2)). reflexivity. }
  erewrite bind_Ok by (by apply (Set_new _ _ 0)). simpl.
  set (o1 := Obj q1 (<["circularReference" := VRef (length h + 2)]>
                       (<["component" := VRef (length h + 1)]>
                          (<["primitive" := VNum 245]> ∅)))).
  set (oh := Obj q3 (<["prototype" := VRef (length h + 0)]> ∅)).
  set (g := h ++ [o1; Obj q2 ∅; oh]).
  assert (Hlen : length g = length h + 3) by (unfold g; by rewrite length_app).
  assert (Hl0 : g !! (length h + 0) = Some o1) by apply lookup_new.
  assert (Hl2 : g !! (length h + 2) = Some oh) by apply lookup_new.
  assert (Hprim : own g (length h + 0) "primitive" = Some (VNum 245))
    by (unfold own; rewrite Hl0; simpl; by simplify_map_eq).
  assert (Hcomp : own g (length h + 0) "component" = Some (VRef (length h + 1)))
    by (unfold own; rewrite Hl0; simpl; by simplify_map_eq).
  assert (Hcirc : own g (length h + 0) "circularReference"
                  = Some (VRef (length h + 2)))
    by (unfold own; rewrite Hl0; simpl; by simplify_map_eq).
  assert (Hown : own g (length h + 2) "prototype" = Some (VRef (length h + 0)))
    by (unfold own; rewrite Hl2; simpl; by simplify_map_eq).
  pose proof (clone_run g (length h + 0) o1 (length h + 1)
                (VRef (length h + 2)) (props oh) Hl0
                (get_own _ _ _ _ Hcomp) (get_own _ _ _ _ Hcirc)
                (own_enumerable_ref _ _ _ Hl2)) as Hrun.
  erewrite bind_Ok by exact Hrun.
  destruct (cloned_facts g (length h + 0) o1 (length h + 1) (props oh))
    as (Hcc & Hcb & Hnp & Hc & _).
  set (g' := g ++ cloned g (length h + 0) o1 (length h + 1) (props oh)) in *.
  assert (Hold : forall l k v, own g l k = Some v -> get g' l k = Some v)
    by (intros l k v Hv; by apply get_ext, get_own).
  erewrite bind_Ok; cycle 1.
  { apply same_run; cbn [get_path].
    - by rewrite (Hold _ _ _ Hprim).
    - erewrite get_proto_own; [done|exact Hc| |done|].
      + unfold own in Hnp. by rewrite Hc in Hnp.
      + unfold own, g'. by rewrite (lookup_app_l_Some _ _ _ _ Hl0).  }
  erewrite bind_Ok; cycle 1.
  { apply same_run; cbn [get_path].
    - by rewrite (Hold _ _ _ Hcomp).
    - by rewrite (get_own _ _ _ _ Hcc). }
  erewrite bind_Ok; cycle 1.
  { apply same_run; cbn [get_path].
    - by rewrite (Hold _ _ _ Hcirc).
    - by rewrite (get_own _ _ _ _ Hcb). }
  erewrite bind_Ok; cycle 1.
  { apply same_run.
    - cbn [get_path]. by rewrite (Hold _ _ _ Hcirc), (Hold _ _ _ Hown).
    - apply owner_of_clone. }
  eexists. rewrite !strict_eq_refs by lia. reflexivity.
Qed.

Lemma clientCode_reports_success_realm :
  exists h',
    clientCode 1 3 5 realm
    = Ok [ "Primitive field values have been carried over to a clone. Yay!";
           "Simple component has been cloned. Yay!";
           "Component with back reference has been cloned. Yay!";
           "Component with back reference is linked to the clone. Yay!" ] h'.
Proof.
  apply (clientCode_reports_success realm 1 3 5 (VRef 2) (VRef 4) (VRef 6));
    vm_compute; reflexivity.
Defined.

End PrototypeSpec.

(** ** Properties of [Singleton.getInstance] *)

Module SingletonSpec.
Import JS JSFacts Singleton.

(** Once the static field holds an object, [getInstance] returns it and
    touches nothing. *)
Lemma getInstance_cached h S v :
  get h S "instance" = Some v -> truthy v = true ->
  getInstance S h = Ok v h.
Proof.
  intros Hi Ht. unfold getInstance.
  assert (HG : Get S "instance" h = Ok v h) by (unfold Get; by rewrite Hi).
  erewrite bind_Ok by exact HG. rewrite Ht. simpl.
  erewrite bind_Ok by reflexivity. exact HG.
Qed.

(** With nothing cached, [getInstance] allocates the instance at the next
    free address and stores it in the static field. *)
Lemma getInstance_first h S v vp :
  get h S "instance" = Some v -> truthy v = false ->
  get h S "prototype" = Some vp ->
  exists h1,
    getInstance S h = Ok (VRef (length h)) h1 /\
    is_Some (h1 !! length h) /\
    get h1 S "instance" = Some (VRef (length h)).
Proof.
  intros Hi Ht Hp. unfold getInstance.
  destruct (get_allocated _ _ _ _ Hi) as [oS HS].
  pose proof (lookup_lt_Some _ _ _ HS) as HSlt.
  assert (HG : Get S "instance" h = Ok v h) by (unfold Get; by rewrite Hi).
  erewrite bind_Ok by exact HG. rewrite Ht. simpl.
  assert (Hnew : exists q, new_ S h = Ok (length h) (h ++ [Obj q ∅])).
  { unfold new_. erewrite bind_Ok by (unfold Get; by rewrite Hp).
    destruct vp; by eexists. }
  destruct Hnew as [q Hnew].
  set (h1 := <[S := Obj (proto oS) (<["instance" := VRef (length h)]> (props oS))]>
               (h ++ [Obj q ∅])).
  assert (Hown : own h1 S "instance" = Some (VRef (length h))).
  { unfold own, h1. rewrite list_lookup_insert_eq
      by (rewrite length_app; simpl; lia).
    simpl. by simplify_map_eq. }
  exists h1. split_and!.
  - erewrite bind_Ok; cycle 1.
    { erewrite bind_Ok by exact Hnew. unfold Set_.
      by rewrite (lookup_app_l_Some _ _ _ _ HS). }
    fold h1. unfold Get. by rewrite (get_own _ _ _ _ Hown).
  - unfold h1. rewrite list_lookup_insert_ne by lia.
    rewrite <- (Nat.add_0_r (length h)) at 1. rewrite lookup_new. by eexists.
  - by apply get_own.
Qed.

Lemma getInstance_times_cached h S v n :
  get h S "instance" = Some v -> truthy v = true ->
  getInstance_times S n h = Ok (replicate n v) h.
Proof.
  intros Hi Ht. induction n as [|n IH]; [done|]. simpl.
  erewrite bind_Ok by by apply getInstance_cached.
  by erewrite bind_Ok by exact IH.
Qed.

(** C9.  In a process where [Singleton.instance] is still [undefined], the
    first call of [getInstance] constructs a new object, stores it in the
    static field and returns it; every later call, in whatever heap still
    has that object in the static field, returns the same reference and
    constructs nothing; so any number of calls in a row all return that
    reference, and any two results are [===]. *)
Theorem getInstance_same_instance h S vp :
  get h S "instance" = Some VUndef ->
  get h S "prototype" = Some vp ->
  exists i h1,
    getInstance S h = Ok (VRef i) h1 /\
    h !! i = None /\ is_Some (h1 !! i) /\
    get h1 S "instance" = Some (VRef i) /\
    getInstance S h1 = Ok (VRef i) h1 /\
    (forall h2, get h2 S "instance" = Some (VRef i) ->
                getInstance S h2 = Ok (VRef i) h2) /\
    (forall n, getInstance_times S n h1 = Ok (replicate n (VRef i)) h1) /\
    (forall n, exists h', getInstance_times S (1 + n) h
                          = Ok (replicate (1 + n) (VRef i)) h') /\
    strict_eq (VRef i) (VRef i) = true.
Proof.
  intros Hi Hp.
  destruct (getInstance_first h S VUndef vp Hi eq_refl Hp) as (h1 & Hrun & Hnew & Hc).
  exists (length h), h1. split_and!; try done.
  - by apply lookup_ge_None_2.
  - by apply getInstance_cached.
  - intros h2 H2. by apply getInstance_cached.
  - intros n. by apply getInstance_times_cached.
  - intros n. exists h1. cbn [Nat.add getInstance_times replicate].
    erewrite bind_Ok by exact Hrun.
    by erewrite bind_Ok by by apply getInstance_times_cached.
  - unfold strict_eq. by rewrite bool_decide_eq_true_2.
Qed.

Lemma getInstance_same_instance_client :
  exists i h1,
    getInstance 1 realm = Ok (VRef i) h1 /\
    realm !! i = None /\ is_Some (h1 !! i) /\
    get h1 1 "instance" = Some (VRef i) /\
    getInstance 1 h1 = Ok (VRef i) h1 /\
    (forall h2, get h2 1 "instance" = Some (VRef i) ->
                getInstance 1 h2 = Ok (VRef i) h2) /\
    (forall n, getInstance_times 1 n h1 = Ok (replicate n (VRef i)) h1) /\
    (forall n, exists h', getInstance_times 1 (1 + n) realm
                          = Ok (replicate (1 + n) (VRef i)) h') /\
    strict_eq (VRef i) (VRef i) = true.
Proof.
  apply (getInstance_same_instance realm 1 (VRef 2)); vm_compute; reflexivity.
Defined.

(** The client prints its success line. *)
Example singleton_client_prints :
  exists h,
    clientCode 1 realm
    = Ok "Singleton works, both variables contain the same instance." h.
Proof. eexists. vm_compute. reflexivity. Qed.

(** *** Further properties of [getInstance] *)

(** The first call, with the heap it leaves: one new object at the end,
    and the class object with its [instance] updated. *)
Lemma getInstance_constructs h S oS v vp :
  h !! S = Some oS ->
  get h S "instance" = Some v -> truthy v = false ->
  get h S "prototype" = Some vp ->
  exists q,
    (forall l, vp = VRef l -> q = Some l) /\
    getInstance S h
    = Ok (VRef (length h))
         (<[S := Obj (proto oS) (<["instance" := VRef (length h)]> (props oS))]>
            (h ++ [Obj q ∅])).
Proof.
  intros HS Hi Ht Hp. unfold getInstance.
  pose proof (lookup_lt_Some _ _ _ HS) as HSlt.
  erewrite bind_Ok by (unfold Get; by rewrite Hi). rewrite Ht. simpl.
  assert (Hnew : exists q, (forall l, vp = VRef l -> q = Some l) /\
                           new_ S h = Ok (length h) (h ++ [Obj q ∅])).
  { unfold new_. erewrite bind_Ok by (unfold Get; by rewrite Hp).
    destruct vp; eexists; (split; [|reflexivity]); intros; congruence. }
  destruct Hnew as (q & Hq & Hnew). exists q. split; [done|].
  erewrite bind_Ok; cycle 1.
  { erewrite bind_Ok by exact Hnew. unfold Set_.
    by rewrite (lookup_app_l_Some _ _ _ _ HS). }
  unfold Get. erewrite get_own; [done|].
  unfold own. rewrite list_lookup_insert_eq by (rewrite length_app; simpl; lia).
  simpl. by simplify_map_eq.
Qed.

(** X9.  [getInstance] never returns a falsy value.  Whatever the static
    field holds when it is called, the result is truthy and is what the
    field holds afterwards: a truthy field is returned as it is with the
    heap untouched; a falsy one ([undefined], [null], [false], [0],
    [NaN], the empty string) is replaced by a newly constructed object. *)
Theorem getInstance_result_is_truthy h S v0 vp :
  get h S "instance" = Some v0 ->
  get h S "prototype" = Some vp ->
  exists r h1,
    getInstance S h = Ok r h1 /\
    truthy r = true /\
    get h1 S "instance" = Some r /\
    (truthy v0 = true -> r = v0 /\ h1 = h) /\
    (truthy v0 = false -> r = VRef (length h) /\ h !! length h = None /\
                          is_Some (h1 !! length h)).
Proof.
  intros Hi Hp. destruct (truthy v0) eqn:Ht.
  - exists v0, h. split; [by apply getInstance_cached|]. by split_and!.
  - destruct (getInstance_first h S v0 vp Hi Ht Hp) as (h1 & Hrun & Hnew & Hc).
    exists (VRef (length h)), h1. split_and!; try done.
    intros _. split_and!; try done. by apply lookup_ge_None_2.
Qed.

Lemma getInstance_result_is_truthy_client :
  exists r h1,
    getInstance 1 realm = Ok r h1 /\
    truthy r = true /\
    get h1 1 "instance" = Some r /\
    (truthy VUndef = true -> r = VUndef /\ h1 = realm) /\
    (truthy VUndef = false -> r = VRef (length realm) /\
                              realm !! length realm = None /\
                              is_Some (h1 !! length realm)).
Proof.
  apply (getInstance_result_is_truthy realm 1 VUndef (VRef 2));
    vm_compute; reflexivity.
Defined.

(** X10.  [getInstance] touches only [Singleton.instance].  It allocates at
    most one object, leaves every other object that existed before as it
    was, and for every property name other than [instance] every read on
    an object that existed before gives the same value as before. *)
Theorem getInstance_changes_only_instance h S v0 vp :
  proto_ok h ->
  get h S "instance" = Some v0 ->
  get h S "prototype" = Some vp ->
  exists r h1,
    getInstance S h = Ok r h1 /\
    length h <= length h1 <= length h + 1 /\
    (forall l, l < length h -> l <> S -> h1 !! l = h !! l) /\
    (forall l k, l < length h -> k <> "instance" -> get h1 l k = get h l k).
Proof.
  intros Hok Hi Hp. destruct (truthy v0) eqn:Ht.
  - exists v0, h. split; [by apply getInstance_cached|].
    split_and!; try done; lia.
  - destruct (get_allocated _ _ _ _ Hi) as [oS HS].
    pose proof (lookup_lt_Some _ _ _ HS) as HSlt.
    destruct (getInstance_constructs h S oS v0 vp HS Hi Ht Hp) as (q & _ & Hrun).
    eexists _, _. split; [exact Hrun|].
    rewrite length_insert, length_app. simpl. split_and!; try lia.
    + intros l Hl Hne. rewrite list_lookup_insert_ne by done.
      by apply lookup_app_l.
    + intros l k Hl Hk. apply get_similar; try done.
      intros j o Hj. destruct (decide (j = S)) as [->|Hne].
      * eexists. rewrite list_lookup_insert_eq by (rewrite length_app; lia).
        split; [done|]. assert (o = oS) as -> by congruence.
        simpl. split; [done|]. by rewrite lookup_insert_ne.
      * exists o. rewrite list_lookup_insert_ne by done.
        split; [by apply lookup_app_l_Some | done].
Qed.

Lemma getInstance_changes_only_instance_client :
  exists r h1,
    getInstance 1 realm = Ok r h1 /\
    length realm <= length h1 <= length realm + 1 /\
    (forall l, l < length realm -> l <> 1 -> h1 !! l = realm !! l) /\
    (forall l k, l < length realm -> k <> "instance" ->
                 get h1 l k = get realm l k).
Proof.
  apply (getInstance_changes_only_instance realm 1 VUndef (VRef 2)).
  - apply proto_okb_sound. vm_compute. reflexivity.
  - vm_compute. reflexivity.
  - vm_compute. reflexivity.
Defined.

(** X11.  The instance is a bare [Singleton].  The object the first call
    constructs is new, has no property of its own and has
    [Singleton.prototype] as its prototype, so every property read on it
    (such as [someBusinessLogic]) is the one [Singleton.prototype] gives;
    this for every name other than [instance], which the call assigns on
    the class object, and [__proto__], an accessor answered with the
    receiver's own prototype link. *)
Theorem getInstance_instance_delegates h S lp :
  proto_ok h ->
  get h S "instance" = Some VUndef ->
  get h S "prototype" = Some (VRef lp) ->
  lp < length h ->
  exists i h1,
    getInstance S h = Ok (VRef i) h1 /\
    h !! i = None /\ i <> lp /\
    h1 !! i = Some (Obj (Some lp) ∅) /\
    forall k, k <> "instance" -> k <> "__proto__" ->
              get h1 i k = get h lp k.
Proof.
  intros Hok Hi Hp Hlp.
  destruct (get_allocated _ _ _ _ Hi) as [oS HS].
  pose proof (lookup_lt_Some _ _ _ HS) as HSlt.
  destruct (getInstance_constructs h S oS VUndef (VRef lp) HS Hi eq_refl Hp)
    as (q & Hq & Hrun).
  rewrite (Hq lp eq_refl) in Hrun.
  set (h1 := <[S := Obj (proto oS) (<["instance" := VRef (length h)]> (props oS))]>
               (h ++ [Obj (Some lp) ∅])) in *.
  assert (Hnew : h1 !! length h = Some (Obj (Some lp) ∅)).
  { unfold h1. rewrite list_lookup_insert_ne by lia.
    rewrite <- (Nat.add_0_r (length h)) at 1. by rewrite lookup_new. }
  exists (length h), h1. split_and!; try done; try lia.
  { by apply lookup_ge_None_2. }
  intros k Hk _. unfold get at 1.
  replace (length h1) with (Datatypes.S (length h))
    by (unfold h1; rewrite length_insert, length_app; simpl; lia).
  cbn [get_fuel]. rewrite Hnew. simpl. rewrite lookup_empty.
  apply get_fuel_similar; try done.
  intros j o Hj. unfold h1. destruct (decide (j = S)) as [->|Hne].
  - eexists. rewrite list_lookup_insert_eq by (rewrite length_app; lia).
    split; [done|]. assert (o = oS) as -> by congruence.
    simpl. split; [done|]. by rewrite lookup_insert_ne.
  - exists o. rewrite list_lookup_insert_ne by done.
    split; [by apply lookup_app_l_Some | done].
Qed.

Lemma getInstance_instance_delegates_client :
  exists i h1,
    getInstance 1 realm = Ok (VRef i) h1 /\
    realm !! i = None /\ i <> 2 /\
    h1 !! i = Some (Obj (Some 2) ∅) /\
    forall k, k <> "instance" -> k <> "__proto__" ->
              get h1 i k = get realm 2 k.
Proof.
  apply (getInstance_instance_delegates realm 1 2).
  - apply proto_okb_sound. vm_compute. reflexivity.
  - vm_compute. reflexivity.
  - vm_compute. reflexivity.
  - vm_compute. lia.
Defined.

(** X12.  The client, in any realm.  Whatever the heap it starts in and
    whatever the static field holds, as long as [Singleton.instance] and
    [Singleton.prototype] can be read, [clientCode] prints the success
    line and never the failure line. *)
Theorem clientCode_reports_same_instance h S v0 vp :
  get h S "instance" = Some v0 ->
  get h S "prototype" = Some vp ->
  exists h',
    clientCode S h
    = Ok "Singleton works, both variables contain the same instance." h'.
Proof.
  intros Hi Hp. unfold clientCode.
  assert (exists r h1, getInstance S h = Ok r h1 /\ getInstance S h1 = Ok r h1 /\
                       truthy r = true)
    as (r & h1 & Hr1 & Hr2 & Hr).
  { destruct (truthy v0) eqn:Ht.
    - exists v0, h. split_and!; try done; by apply getInstance_cached.
    - destruct (getInstance_first h S v0 vp Hi Ht Hp) as (h1 & Hrun & _ & Hc).
      exists (VRef (length h)), h1. split_and!; try done.
      by apply getInstance_cached. }
  exists h1.
  erewrite bind_Ok by exact Hr1. erewrite bind_Ok by exact Hr2.
  by rewrite strict_eq_truthy.
Qed.

Lemma clientCode_reports_same_instance_realm :
  exists h',
    clientCode 1 realm
    = Ok "Singleton works, both variables contain the same instance." h'.
Proof.
  apply (clientCode_reports_same_instance realm 1 VUndef (VRef 2));
    vm_compute; reflexivity.
Defined.

End SingletonSpec.

(** ** Properties of [Creator.someOperation] *)

Module FactoryMethodSpec.
Import FactoryMethod.

Lemma append_empty_r (s : string) : s +:+ EmptyString = s.
Proof.
  induction s as [|a s IH]; [done|].
  change (String a (s +:+ EmptyString) = String a s). by rewrite IH.
Qed.

(** Whatever the creator, the output embeds what its product returns. *)
Lemma someOperation_contains (creator : Creator) :
  contains (someOperation creator) (operation (factoryMethod creator tt) tt).
Proof.
  exists "Creator: The same creator's code has just worked with ", EmptyString.
  unfold someOperation. by rewrite append_empty_r.
Qed.

(** The script prints, for each creator, the sentence with its product. *)
Example factory_main_prints :
  main
  = [ "App: Launched with the ConcreteCreator1.";
      "Client: I'm not aware of the creator's class, but it still works.";
      "Creator: The same creator's code has just worked with {Result of the ConcreteProduct1}";
      EmptyString;
      "App: Launched with the ConcreteCreator2.";
      "Client: I'm not aware of the creator's class, but it still works.";
      "Creator: The same creator's code has just worked with {Result of the ConcreteProduct2}" ].
Proof. reflexivity. Qed.

(** C10.  [someOperation()] on [ConcreteCreator1] returns the base class's
    sentence completed with the string of [ConcreteProduct1.operation()],
    which it therefore contains; likewise [ConcreteCreator2] with
    [ConcreteProduct2]; and the two product strings, hence the two
    outputs, are different. *)
Theorem someOperation_dispatch :
  someOperation ConcreteCreator1
  = "Creator: The same creator's code has just worked with {Result of the ConcreteProduct1}" /\
  contains (someOperation ConcreteCreator1) (operation ConcreteProduct1 tt) /\
  someOperation ConcreteCreator2
  = "Creator: The same creator's code has just worked with {Result of the ConcreteProduct2}" /\
  contains (someOperation ConcreteCreator2) (operation ConcreteProduct2 tt) /\
  operation ConcreteProduct1 tt <> operation ConcreteProduct2 tt /\
  someOperation ConcreteCreator1 <> someOperation ConcreteCreator2.
Proof.
  split_and!; try done.
  - apply (someOperation_contains ConcreteCreator1).
  - apply (someOperation_contains ConcreteCreator2).
Qed.

(** X13.  The output of [someOperation] tells the products apart and
    nothing else: two creators, of any subclass, give the same output
    exactly when the products their factory methods return give the same
    [operation()] string. *)
Theorem someOperation_determined_by_product (c1 c2 : Creator) :
  someOperation c1 = someOperation c2 <->
  operation (factoryMethod c1 tt) tt = operation (factoryMethod c2 tt) tt.
Proof.
  unfold someOperation. split.
  - intros H. by apply (inj (String.app _)) in H.
  - intros H. by rewrite H.
Qed.

End FactoryMethodSpec.
